(** * signvalidator: canonical parameter strings and their digests

    A shallow embedding of the Go package [signvalidator] (type [Config],
    [NewSignValidator], [GenerateSignature], [Validate],
    [ValidateWithSignInParams], [convertToString]) together with the parts of
    the Go standard library the package calls: [crypto/md5], [crypto/sha1],
    [crypto/sha256], [crypto/hmac], [encoding/hex], [encoding/json],
    [fmt.Sprintf] for the verbs the package uses, [sort.Strings] and
    [strings.ToUpper]/[strings.ToLower].

    Go strings and byte slices are byte sequences: a Go [string] is a Rocq
    [string] (one [ascii] per byte, UTF-8 text is its encoding), a [[]byte]
    is a [list byte].  Go maps are reference values: they live in a store
    ([heap]) and the package's methods are written in a state monad over
    that store. *)

From Stdlib Require Import ZArith List Strings.String Strings.Ascii Strings.Byte.
From Stdlib Require Import DecimalString DecimalZ DecimalPos Floats.SpecFloat.
From stdpp Require Import gmap strings list sorting.
Import ListNotations.

Set Warnings "-register-all,-clear-no-such-hyp".
Local Open Scope Z_scope.

(** ** Bytes and 32-bit words *)

Definition bytes : Type := list byte.

Definition byte_to_Z (b : byte) : Z := Z.of_N (Byte.to_N b).

Definition Z_to_byte (z : Z) : byte :=
  match Byte.of_N (Z.to_N (Z.land z 255)) with
  | Some b => b
  | None => x00
  end.

(** [[]byte(s)] and [string(b)]. *)
Definition string_to_bytes (s : string) : bytes := list_byte_of_string s.
Definition bytes_to_string (b : bytes) : string := string_of_list_byte b.

Definition ascii_to_Z (c : ascii) : Z := Z.of_N (N_of_ascii c).
Definition Z_to_ascii (z : Z) : ascii := ascii_of_N (Z.to_N z).

(** [uint32] arithmetic: every result is reduced modulo [2^32]. *)
Module Word32.
Definition mask : Z := 4294967295.
Definition wrap (x : Z) : Z := Z.land x mask.
Definition add (x y : Z) : Z := wrap (x + y).
Definition not (x : Z) : Z := Z.lxor x mask.
Definition rotl (x : Z) (n : Z) : Z :=
  wrap (Z.lor (Z.shiftl x n) (Z.shiftr x (32 - n))).
Definition rotr (x : Z) (n : Z) : Z :=
  wrap (Z.lor (Z.shiftr x n) (Z.shiftl x (32 - n))).
Definition of_le (bs : list Z) : Z :=
  fold_right (fun b acc => b + 256 * acc) 0 bs.
Definition of_be (bs : list Z) : Z :=
  fold_left (fun acc b => 256 * acc + b) bs 0.
Definition to_le (n : nat) (x : Z) : list Z :=
  map (fun i => Z.land (Z.shiftr x (8 * Z.of_nat i)) 255) (seq 0 n).
Definition to_be (n : nat) (x : Z) : list Z := rev (to_le n x).
End Word32.

Fixpoint chunks {A} (fuel n : nat) (l : list A) : list (list A) :=
  match fuel with
  | O => []
  | S fuel' =>
      match l with
      | [] => []
      | _ => firstn n l :: chunks fuel' n (skipn n l)
      end
  end.

Definition blocks_of {A} (n : nat) (l : list A) : list (list A) :=
  chunks (length l) n l.

(** Merkle-Damgard padding shared by MD5, SHA-1 and SHA-256: a [0x80] byte,
    zeros up to 56 modulo 64, then the bit length on 8 bytes. *)
Definition md_pad (len_enc : Z -> list Z) (msg : list Z) : list Z :=
  let n := Z.of_nat (length msg) in
  let k := Z.to_nat ((55 - n) mod 64) in
  msg ++ [128] ++ repeat 0 k ++ len_enc (8 * n).

Definition nthZ (l : list Z) (i : nat) : Z := nth i l 0.

(** ** crypto/md5 *)
Module md5.
Import Word32.
Definition K : list Z :=
  [3614090360; 3905402710; 606105819; 3250441966; 4118548399; 1200080426;
   2821735955; 4249261313; 1770035416; 2336552879; 4294925233; 2304563134;
   1804603682; 4254626195; 2792965006; 1236535329; 4129170786; 3225465664;
   643717713; 3921069994; 3593408605; 38016083; 3634488961; 3889429448;
   568446438; 3275163606; 4107603335; 1163531501; 2850285829; 4243563512;
   1735328473; 2368359562; 4294588738; 2272392833; 1839030562; 4259657740;
   2763975236; 1272893353; 4139469664; 3200236656; 681279174; 3936430074;
   3572445317; 76029189; 3654602809; 3873151461; 530742520; 3299628645;
   4096336452; 1126891415; 2878612391; 4237533241; 1700485571; 2399980690;
   4293915773; 2240044497; 1873313359; 4264355552; 2734768916; 1309151649;
   4149444226; 3174756917; 718787259; 3951481745].
Definition R : list Z :=
  [7; 12; 17; 22; 7; 12; 17; 22; 7; 12; 17; 22; 7; 12; 17; 22;
   5; 9; 14; 20; 5; 9; 14; 20; 5; 9; 14; 20; 5; 9; 14; 20;
   4; 11; 16; 23; 4; 11; 16; 23; 4; 11; 16; 23; 4; 11; 16; 23;
   6; 10; 15; 21; 6; 10; 15; 21; 6; 10; 15; 21; 6; 10; 15; 21].
Definition state : Type := Z * Z * Z * Z.
Definition init : state := (1732584193, 4023233417, 2562383102, 271733878).
Definition step (W : list Z) (st : state) (i : nat) : state :=
  let '(a, b, c, d) := st in
  let '(f, g) :=
    if (i <? 16)%nat then (Z.lor (Z.land b c) (Z.land (not b) d), i)
    else if (i <? 32)%nat then
      (Z.lor (Z.land d b) (Z.land (not d) c), ((5 * i + 1) mod 16)%nat)
    else if (i <? 48)%nat then
      (Z.lxor (Z.lxor b c) d, ((3 * i + 5) mod 16)%nat)
    else (Z.lxor c (Z.lor b (not d)), ((7 * i) mod 16)%nat) in
  let t := add (add (add f a) (nthZ K i)) (nthZ W g) in
  (d, add b (rotl t (nthZ R i)), b, c).
Definition block (st : state) (blk : list Z) : state :=
  let W := map of_le (blocks_of 4 blk) in
  let '(a, b, c, d) := st in
  let '(a', b', c', d') := fold_left (step W) (seq 0 64) st in
  (add a a', add b b', add c c', add d d').
Definition Sum (msg : bytes) : bytes :=
  let m := md_pad (to_le 8) (map byte_to_Z msg) in
  let '(a, b, c, d) := fold_left block (blocks_of 64 m) init in
  map Z_to_byte (to_le 4 a ++ to_le 4 b ++ to_le 4 c ++ to_le 4 d).
End md5.

(** ** crypto/sha1 *)
Module sha1.
Import Word32.
Definition state : Type := Z * Z * Z * Z * Z.
Definition init : state :=
  (1732584193, 4023233417, 2562383102, 271733878, 3285377520).
Definition expand (W : list Z) (i : nat) : list Z :=
  W ++ [rotl (Z.lxor (Z.lxor (nthZ W (i - 3)) (nthZ W (i - 8)))
                     (Z.lxor (nthZ W (i - 14)) (nthZ W (i - 16)))) 1].
Definition step (W : list Z) (st : state) (i : nat) : state :=
  let '(a, b, c, d, e) := st in
  let '(f, k) :=
    if (i <? 20)%nat then (Z.lor (Z.land b c) (Z.land (not b) d), 1518500249)
    else if (i <? 40)%nat then (Z.lxor (Z.lxor b c) d, 1859775393)
    else if (i <? 60)%nat then
      (Z.lor (Z.lor (Z.land b c) (Z.land b d)) (Z.land c d), 2400959708)
    else (Z.lxor (Z.lxor b c) d, 3395469782) in
  let t := add (add (add (add (rotl a 5) f) e) (nthZ W i)) k in
  (t, a, rotl b 30, c, d).
Definition block (st : state) (blk : list Z) : state :=
  let W := fold_left expand (seq 16 64) (map of_be (blocks_of 4 blk)) in
  let '(a, b, c, d, e) := st in
  let '(a', b', c', d', e') := fold_left (step W) (seq 0 80) st in
  (add a a', add b b', add c c', add d d', add e e').
Definition Sum (msg : bytes) : bytes :=
  let m := md_pad (to_be 8) (map byte_to_Z msg) in
  let '(a, b, c, d, e) := fold_left block (blocks_of 64 m) init in
  map Z_to_byte
    (to_be 4 a ++ to_be 4 b ++ to_be 4 c ++ to_be 4 d ++ to_be 4 e).
End sha1.

(** ** crypto/sha256 *)
Module sha256.
Import Word32.
Definition K : list Z :=
  [1116352408; 1899447441; 3049323471; 3921009573; 961987163; 1508970993;
   2453635748; 2870763221; 3624381080; 310598401; 607225278; 1426881987;
   1925078388; 2162078206; 2614888103; 3248222580; 3835390401; 4022224774;
   264347078; 604807628; 770255983; 1249150122; 1555081692; 1996064986;
   2554220882; 2821834349; 2952996808; 3210313671; 3336571891; 3584528711;
   113926993; 338241895; 666307205; 773529912; 1294757372; 1396182291;
   1695183700; 1986661051; 2177026350; 2456956037; 2730485921; 2820302411;
   3259730800; 3345764771; 3516065817; 3600352804; 4094571909; 275423344;
   430227734; 506948616; 659060556; 883997877; 958139571; 1322822218;
   1537002063; 1747873779; 1955562222; 2024104815; 2227730452; 2361852424;
   2428436474; 2756734187; 3204031479; 3329325298].
Definition init : list Z :=
  [1779033703; 3144134277; 1013904242; 2773480762;
   1359893119; 2600822924; 528734635; 1541459225].
Definition xor3 (x y z : Z) : Z := Z.lxor (Z.lxor x y) z.
Definition expand (W : list Z) (i : nat) : list Z :=
  let w15 := nthZ W (i - 15) in
  let w2 := nthZ W (i - 2) in
  let s0 := xor3 (rotr w15 7) (rotr w15 18) (Z.shiftr w15 3) in
  let s1 := xor3 (rotr w2 17) (rotr w2 19) (Z.shiftr w2 10) in
  W ++ [add (add (add (nthZ W (i - 16)) s0) (nthZ W (i - 7))) s1].
Definition step (W : list Z) (st : list Z) (i : nat) : list Z :=
  match st with
  | [a; b; c; d; e; f; g; h] =>
      let S1 := xor3 (rotr e 6) (rotr e 11) (rotr e 25) in
      let ch := Z.lxor (Z.land e f) (Z.land (not e) g) in
      let t1 := add (add (add (add h S1) ch) (nthZ K i)) (nthZ W i) in
      let S0 := xor3 (rotr a 2) (rotr a 13) (rotr a 22) in
      let maj := xor3 (Z.land a b) (Z.land a c) (Z.land b c) in
      let t2 := add S0 maj in
      [add t1 t2; a; b; c; add d t1; e; f; g]
  | _ => st
  end.
Definition block (st : list Z) (blk : list Z) : list Z :=
  let W := fold_left expand (seq 16 48) (map of_be (blocks_of 4 blk)) in
  map (fun p => add (fst p) (snd p))
      (combine st (fold_left (step W) (seq 0 64) st)).
Definition Sum (msg : bytes) : bytes :=
  let m := md_pad (to_be 8) (map byte_to_Z msg) in
  map Z_to_byte
    (concat (map (to_be 4) (fold_left block (blocks_of 64 m) init))).
End sha256.

(** ** errors and hash.Hash *)

(** A Go [error] is known by its message. *)
Record error : Type := errors_New { Error : string }.

(** [hash.Hash]: a running hash.  [Write] appends to what was written so
    far and never fails; [Sum] appends the digest of everything written to
    its argument. *)
Module hash.
Record Hash : Type := {
  digest : bytes -> bytes;
  BlockSize : nat;
  written : bytes
}.
Definition Write (h : Hash) (p : bytes) : Hash * (nat * option error) :=
  ({| digest := digest h; BlockSize := BlockSize h;
      written := (written h ++ p)%list |},
   (length p, None)).
Definition Sum (h : Hash) (b : bytes) : bytes :=
  (b ++ digest h (written h))%list.
End hash.

Definition md5_New (_ : unit) : hash.Hash :=
  {| hash.digest := md5.Sum; hash.BlockSize := 64; hash.written := [] |}.
Definition sha1_New (_ : unit) : hash.Hash :=
  {| hash.digest := sha1.Sum; hash.BlockSize := 64; hash.written := [] |}.
Definition sha256_New (_ : unit) : hash.Hash :=
  {| hash.digest := sha256.Sum; hash.BlockSize := 64; hash.written := [] |}.

(** ** crypto/hmac *)
Module hmac.
Definition xor_pad (p : Z) (key : bytes) : bytes :=
  map (fun b => Z_to_byte (Z.lxor (byte_to_Z b) p)) key.
(** The MAC of [msg] under [key] for the hash made by [h]: a key longer
    than the block is hashed first, then zero-padded to the block size. *)
Definition mac (h : unit -> hash.Hash) (key : bytes) (msg : bytes) : bytes :=
  let H := hash.digest (h tt) in
  let blocksize := hash.BlockSize (h tt) in
  let key' := if (blocksize <? length key)%nat then H key else key in
  let padded := (key' ++ repeat x00 (blocksize - length key'))%list in
  H (xor_pad 92 padded ++ H (xor_pad 54 padded ++ msg))%list.
Definition New (h : unit -> hash.Hash) (key : bytes) : hash.Hash :=
  {| hash.digest := mac h key;
     hash.BlockSize := hash.BlockSize (h tt);
     hash.written := [] |}.
End hmac.

(** ** encoding/hex *)
Module hex.
Definition hextable : string := "0123456789abcdef".
Definition digit (n : Z) : ascii :=
  match String.get (Z.to_nat n) hextable with
  | Some c => c
  | None => "0"%char
  end.
Fixpoint EncodeToString (src : bytes) : string :=
  match src with
  | [] => EmptyString
  | b :: rest =>
      let v := byte_to_Z b in
      String (digit (Z.shiftr v 4))
        (String (digit (Z.land v 15)) (EncodeToString rest))
  end.
End hex.

(** ** strings and sort *)

(** [strings.ToUpper] and [strings.ToLower] on their ASCII path, the only
    one the package reaches (it changes the case of hexadecimal text).
    Bytes from [0x80] up are kept as they are. *)
Definition upper_byte (c : ascii) : ascii :=
  let z := ascii_to_Z c in
  if (97 <=? z) && (z <=? 122) then Z_to_ascii (z - 32) else c.

Definition lower_byte (c : ascii) : ascii :=
  let z := ascii_to_Z c in
  if (65 <=? z) && (z <=? 90) then Z_to_ascii (z + 32) else c.

Fixpoint string_map (f : ascii -> ascii) (s : string) : string :=
  match s with
  | EmptyString => EmptyString
  | String c rest => String (f c) (string_map f rest)
  end.

Definition strings_ToUpper (s : string) : string := string_map upper_byte s.
Definition strings_ToLower (s : string) : string := string_map lower_byte s.

(** [sort.Strings]: the ascending arrangement under byte-wise comparison. *)
Definition sort_Strings (l : list string) : list string :=
  merge_sort String.le l.

(** ** fmt *)

(** [%d] of an integer of any width. *)
Definition fmt_d (n : Z) : string := NilZero.string_of_int (Z.to_int n).

Definition digit_char (d : Z) : ascii := Z_to_ascii (48 + d).

(** The six digits of [n] below [10^6], most significant first. *)
Definition frac6 (n : Z) : string :=
  string_of_list_ascii
    (map (fun i => digit_char ((n / 10 ^ i) mod 10)) [5; 4; 3; 2; 1; 0]).

Definition round_half_even (num den : Z) : Z :=
  let q := num / den in
  let r := num mod den in
  if den <? 2 * r then q + 1
  else if (2 * r =? den) && Z.odd q then q + 1
  else q.

(** [m * 2^e] in fixed notation with six decimals; the exact decimal
    expansion is rounded to nearest, ties to even. *)
Definition format_fixed6 (neg : bool) (m e : Z) : string :=
  let scaled :=
    if 0 <=? e then m * 2 ^ e * 10 ^ 6
    else round_half_even (m * 10 ^ 6) (2 ^ (- e)) in
  (if neg then "-" else "") +:+ fmt_d (scaled / 10 ^ 6) +:+ "."
    +:+ frac6 (scaled mod 10 ^ 6).

(** [%.6f] of a [float32] or [float64]. *)
Definition fmt_f6 (f : spec_float) : string :=
  match f with
  | S754_zero s => format_fixed6 s 0 0
  | S754_infinity s => if s then "-Inf" else "+Inf"
  | S754_nan => "NaN"
  | S754_finite s m e => format_fixed6 s (Z.pos m) e
  end.

(** ** Dynamic values

    What a [map[string]interface{}] entry can hold.  The first five
    constructors are the dynamic types [convertToString] names in its type
    switch; [VOther] is any other dynamic type, described by the shape
    [encoding/json] sees: slices and arrays, maps with string keys, and
    named types whose underlying kind is string, integer or bool.  [ENil]
    is a nil slice, map or pointer.  Composite values with floating-point
    leaves, byte slices, structs, channels and functions are not
    modelled. *)

Inductive IntKind : Type :=
| Int | Int8 | Int16 | Int32 | Int64
| Uint | Uint8 | Uint16 | Uint32 | Uint64.

Inductive FloatKind : Type := Float32 | Float64.

Inductive Elem : Type :=
| EString (s : string)
| EInt (n : Z)
| EBool (b : bool)
| ENil
| ESlice (l : list Elem)
| EMap (m : gmap string Elem).

Inductive Value : Type :=
| VString (s : string)
| VInt (k : IntKind) (n : Z)
| VFloat (k : FloatKind) (f : spec_float)
| VBool (b : bool)
| VNil
| VOther (e : Elem).

(** Keys of a Go map in ascending order, as [encoding/json] and [fmt] visit
    them. *)
Definition sorted_keys {A} (m : gmap string A) : list string :=
  sort_Strings (map fst (map_to_list m)).

(** [%v] of a composite value. *)
Fixpoint fmt_v (e : Elem) : string :=
  match e with
  | EString s => s
  | EInt n => fmt_d n
  | EBool b => if b then "true" else "false"
  | ENil => "<nil>"
  | ESlice l => "[" +:+ String.concat " " (map fmt_v l) +:+ "]"
  | EMap m =>
      let r := fmt_v <$> m in
      "map["
        +:+ String.concat " "
              (map (fun k => k +:+ ":" +:+ default EmptyString (r !! k))
                   (sorted_keys r))
        +:+ "]"
  end.

(** ** unicode/utf8 and encoding/json *)
Module utf8.
Definition cont (lo hi b : Z) : bool := (lo <=? b) && (b <=? hi).
(** Number of bytes of the encoding that starts with [b0] and continues
    with [rest]; [1] for an invalid or truncated encoding, as
    [DecodeRuneInString] reports [RuneError] with width 1. *)
Definition rune_len (b0 : Z) (rest : list Z) : nat :=
  if (194 <=? b0) && (b0 <=? 223) then
    match rest with
    | b1 :: _ => if cont 128 191 b1 then 2 else 1
    | _ => 1
    end
  else if (224 <=? b0) && (b0 <=? 239) then
    let lo := if b0 =? 224 then 160 else 128 in
    let hi := if b0 =? 237 then 159 else 191 in
    match rest with
    | b1 :: b2 :: _ => if cont lo hi b1 && cont 128 191 b2 then 3 else 1
    | _ => 1
    end
  else if (240 <=? b0) && (b0 <=? 244) then
    let lo := if b0 =? 240 then 144 else 128 in
    let hi := if b0 =? 244 then 143 else 191 in
    match rest with
    | b1 :: b2 :: b3 :: _ =>
        if cont lo hi b1 && cont 128 191 b2 && cont 128 191 b3 then 4 else 1
    | _ => 1
    end
  else 1.
End utf8.

Module json.
Definition str (s : string) : list Z := map ascii_to_Z (list_ascii_of_string s).
Definition unstr (l : list Z) : string := string_of_list_ascii (map Z_to_ascii l).

(** [htmlSafeSet]: printable ASCII except the quote, the backslash and
    the three HTML characters. *)
Definition htmlSafe (b : Z) : bool :=
  (32 <=? b) && (b <? 128)
  && negb ((b =? 34) || (b =? 38) || (b =? 60) || (b =? 62) || (b =? 92)).

Definition escape_ascii (b : Z) : list Z :=
  if htmlSafe b then [b]
  else if (b =? 92) || (b =? 34) then [92; b]
  else if b =? 8 then str "\b"
  else if b =? 12 then str "\f"
  else if b =? 10 then str "\n"
  else if b =? 13 then str "\r"
  else if b =? 9 then str "\t"
  else (str "\u00"
          ++ [ascii_to_Z (hex.digit (Z.shiftr b 4));
              ascii_to_Z (hex.digit (Z.land b 15))])%list.

(** Body of [appendString] (Go 1.22 and later) with HTML escaping on, as
    [json.Marshal] sets it: invalid UTF-8 becomes
    the six characters of the replacement rune's escape, U+2028 and
    U+2029 are escaped, everything else above ASCII is copied. *)
Fixpoint escape (src : list Z) : list Z :=
  match src with
  | [] => []
  | b :: rest =>
      if b <? 128 then (escape_ascii b ++ escape rest)%list
      else
        match utf8.rune_len b rest, rest with
        | 2%nat, b1 :: r => b :: b1 :: escape r
        | 3%nat, b1 :: b2 :: r =>
            if (b =? 226) && (b1 =? 128) && ((b2 =? 168) || (b2 =? 169))
            then (str "\u202" ++ ascii_to_Z (hex.digit (Z.land b2 15))
                    :: escape r)%list
            else b :: b1 :: b2 :: escape r
        | 4%nat, b1 :: b2 :: b3 :: r => b :: b1 :: b2 :: b3 :: escape r
        | _, _ => (str "\ufffd" ++ escape rest)%list
        end
  end.

Definition dquote : string := String (Z_to_ascii 34) EmptyString.

Definition quote (s : string) : string :=
  dquote +:+ unstr (escape (str s)) +:+ dquote.

Fixpoint encode (e : Elem) : string :=
  match e with
  | EString s => quote s
  | EInt n => fmt_d n
  | EBool b => if b then "true" else "false"
  | ENil => "null"
  | ESlice l => "[" +:+ String.concat "," (map encode l) +:+ "]"
  | EMap m =>
      let r := encode <$> m in
      "{"
        +:+ String.concat ","
              (map (fun k => quote k +:+ ":" +:+ default EmptyString (r !! k))
                   (sorted_keys r))
        +:+ "}"
  end.

(** [json.Marshal]; every modelled value has an encoding. *)
Definition Marshal (e : Elem) : bytes * option error :=
  (string_to_bytes (encode e), None).
End json.

(** ** The store of Go maps

    A [map[string]interface{}] is a reference: a location of the store.
    Reading a location that holds no map reads the empty map, as a nil map
    does; [delete] and assignment act on allocated maps only (the package
    assigns to the map it has just made). *)

Definition loc : Type := positive.
Abbreviation heap := (gmap loc (gmap string Value)).

Definition State (A : Type) : Type := heap -> A * heap.

#[global] Instance State_ret : MRet State := fun A (a : A) (h : heap) => (a, h).
#[global] Instance State_bind : MBind State :=
  fun A B (f : A -> State B) (m : State A) (h : heap) =>
    let '(a, h') := m h in f a h'.

(** [make(map[string]interface{})] *)
Definition make_map : State loc :=
  fun h => let l := fresh (dom h) in (l, <[l := ∅]> h).

(** The entries [for k, v := range m] visits. *)
Definition map_range (m : loc) : State (list (string * Value)) :=
  fun h => (map_to_list (h !!! m), h).

(** [m[k] = v] *)
Definition map_assign (m : loc) (k : string) (v : Value) : State unit :=
  fun h => (tt, alter (insert k v) m h).

(** [delete(m, k)] *)
Definition map_delete (m : loc) (k : string) : State unit :=
  fun h => (tt, alter (delete k) m h).

(** [v, ok := m[k]] *)
Definition map_lookup (m : loc) (k : string) : State (option Value) :=
  fun h => ((h !!! m) !! k, h).

(** [m[k]], the nil interface when the key is absent. *)
Definition map_index (m : loc) (k : string) : State Value :=
  fun h => (default VNil ((h !!! m) !! k), h).

Fixpoint for_range {A} (l : list A) (body : A -> State unit) : State unit :=
  match l with
  | [] => mret tt
  | x :: rest => body x ;; for_range rest body
  end.

(** ** Package signvalidator *)

Definition SignAlgorithm : Type := string.

Definition MD5 : SignAlgorithm := "md5".
Definition SHA1 : SignAlgorithm := "sha1".
Definition SHA256 : SignAlgorithm := "sha256".
Definition HMAC_MD5 : SignAlgorithm := "hmac_md5".
Definition HMAC_SHA1 : SignAlgorithm := "hmac_sha1".
Definition HMAC_SHA256 : SignAlgorithm := "hmac_sha256".

Record Config : Type := {
  Secret : string;
  Algorithm : SignAlgorithm;
  SignatureKey : string;
  IgnoreKeys : list string;
  UpperCase : bool
}.

Record SignValidator : Type := { config : Config }.

(** The interface [Validator]. *)
Class Validator (T : Type) : Type := {
  Validator_Validate : T -> loc -> string -> State (bool * option error);
  Validator_GenerateSignature : T -> loc -> State (string * option error)
}.

Definition with_SignatureKey (c : Config) (k : string) : Config :=
  {| Secret := Secret c; Algorithm := Algorithm c; SignatureKey := k;
     IgnoreKeys := IgnoreKeys c; UpperCase := UpperCase c |}.

Definition with_Algorithm (c : Config) (a : SignAlgorithm) : Config :=
  {| Secret := Secret c; Algorithm := a; SignatureKey := SignatureKey c;
     IgnoreKeys := IgnoreKeys c; UpperCase := UpperCase c |}.

Definition NewSignValidator (c : Config) : SignValidator :=
  let c :=
    if decide (SignatureKey c = "") then with_SignatureKey c "sign" else c in
  let c :=
    if decide (Algorithm c = "") then with_Algorithm c SHA256 else c in
  {| config := c |}.

Definition calculateHash (h : hash.Hash) (data : string)
  : bytes * option error :=
  let '(h, (_, err)) := hash.Write h (string_to_bytes data) in
  match err with
  | Some e => ([], Some e)
  | None => (hash.Sum h [], None)
  end.

Definition calculateHMAC (hashFunc : unit -> hash.Hash) (key : bytes)
    (data : string) : bytes * option error :=
  let h := hmac.New hashFunc key in
  let '(h, (_, err)) := hash.Write h (string_to_bytes data) in
  match err with
  | Some e => ([], Some e)
  | None => (hash.Sum h [], None)
  end.

Definition convertToString (value : Value) : string :=
  match value with
  | VString v => v
  | VInt _ v => fmt_d v
  | VFloat _ v => fmt_f6 v
  | VBool v => if v then "true" else "false"
  | VNil => ""
  | VOther v =>
      let '(jsonBytes, err) := json.Marshal v in
      match err with
      | Some _ => fmt_v v
      | None => bytes_to_string jsonBytes
      end
  end.

(** The loop over the sorted keys that fills the [strings.Builder]; [i] is
    the index of the first key of [keys] in the whole slice. *)
Fixpoint write_pairs (paramsCopy : loc) (i : nat) (keys : list string)
    (builder : string) : State string :=
  match keys with
  | [] => mret builder
  | key :: rest =>
      let builder := if (0 <? i)%nat then builder +:+ "&" else builder in
      let builder := builder +:+ key in
      let builder := builder +:+ "=" in
      val ← map_index paramsCopy key;
      let builder := builder +:+ convertToString val in
      write_pairs paramsCopy (S i) rest builder
  end.

(** First half of [GenerateSignature]: from the copy of the parameters to
    [stringToSign := builder.String()]. *)
Definition stringToSign (v : SignValidator) (params : loc) : State string :=
  paramsCopy ← make_map;
  entries ← map_range params;
  for_range entries (fun kv => map_assign paramsCopy kv.1 kv.2);;
  map_delete paramsCopy (SignatureKey (config v));;
  for_range (IgnoreKeys (config v)) (fun key => map_delete paramsCopy key);;
  entries ← map_range paramsCopy;
  let keys := fold_left (fun keys kv => keys ++ [kv.1])%list entries [] in
  let keys := sort_Strings keys in
  builder ← write_pairs paramsCopy 0 keys "";
  let builder :=
    if decide (Secret (config v) ≠ "")
    then (builder +:+ "&key=") +:+ Secret (config v)
    else builder in
  mret builder.

(** Second half of [GenerateSignature]: the switch on the algorithm, the
    hexadecimal encoding and the change of case. *)
Definition signString (v : SignValidator) (stringToSign : string)
  : string * option error :=
  let alg := Algorithm (config v) in
  let key := string_to_bytes (Secret (config v)) in
  let switch : option (bytes * option error) :=
    if decide (alg = MD5) then Some (calculateHash (md5_New tt) stringToSign)
    else if decide (alg = SHA1) then
      Some (calculateHash (sha1_New tt) stringToSign)
    else if decide (alg = SHA256) then
      Some (calculateHash (sha256_New tt) stringToSign)
    else if decide (alg = HMAC_MD5) then
      Some (calculateHMAC md5_New key stringToSign)
    else if decide (alg = HMAC_SHA1) then
      Some (calculateHMAC sha1_New key stringToSign)
    else if decide (alg = HMAC_SHA256) then
      Some (calculateHMAC sha256_New key stringToSign)
    else None in
  match switch with
  | None => ("", Some (errors_New ("不支持的签名算法: " +:+ alg)))
  | Some (signBytes, Some err) => ("", Some err)
  | Some (signBytes, None) =>
      let signature := hex.EncodeToString signBytes in
      let signature :=
        if UpperCase (config v) then strings_ToUpper signature
        else strings_ToLower signature in
      (signature, None)
  end.

Definition GenerateSignature (v : SignValidator) (params : loc)
  : State (string * option error) :=
  s ← stringToSign v params;
  mret (signString v s).

Definition Validate (v : SignValidator) (params : loc) (signature : string)
  : State (bool * option error) :=
  r ← GenerateSignature v params;
  match r with
  | (_, Some err) => mret (false, Some err)
  | (expectedSign, None) =>
      mret (bool_decide (expectedSign = signature), None)
  end.

Definition ValidateWithSignInParams (v : SignValidator) (params : loc)
  : State (bool * option error) :=
  r ← map_lookup params (SignatureKey (config v));
  match r with
  | None => mret (false, Some (errors_New "签名参数不存在"))
  | Some (VString signature) => Validate v params signature
  | Some _ => mret (false, Some (errors_New "签名参数不是字符串类型"))
  end.

#[global] Instance SignValidator_Validator : Validator SignValidator := {|
  Validator_Validate := Validate;
  Validator_GenerateSignature := GenerateSignature
|}.

(** ** Vocabulary of the statements *)

(** The six values of [SignAlgorithm] the switch of [GenerateSignature]
    names. *)
Definition recognized (a : SignAlgorithm) : Prop :=
  a ∈ [MD5; SHA1; SHA256; HMAC_MD5; HMAC_SHA1; HMAC_SHA256].

(** The keys [GenerateSignature] deletes from its copy. *)
Definition excluded (c : Config) (k : string) : Prop :=
  k = SignatureKey c ∨ k ∈ IgnoreKeys c.

#[global] Instance excluded_dec c k : Decision (excluded c k).
Proof. unfold excluded. apply _. Defined.

(** The copy of the parameters after the two rounds of [delete]. *)
Definition filterParams (c : Config) (m : gmap string Value)
  : gmap string Value :=
  fold_left (fun m k => delete k m) (IgnoreKeys c) (delete (SignatureKey c) m).

(** One [key=value] segment. *)
Definition pair_of (m : gmap string Value) (key : string) : string :=
  (key +:+ "=") +:+ convertToString (default VNil (m !! key)).

(** The [&]-joined segments of the kept parameters, keys ascending. *)
Definition joinedPairs (c : Config) (m : gmap string Value) : string :=
  let m' := filterParams c m in
  String.concat "&" (map (pair_of m') (sorted_keys m')).

(** What [stringToSign] returns, as a function of the parameters. *)
Definition canonical (c : Config) (m : gmap string Value) : string :=
  if decide (Secret c ≠ "")
  then (joinedPairs c m +:+ "&key=") +:+ Secret c
  else joinedPairs c m.




(** [s] between two double quotes. *)
Definition quoted (s : string) : string := (json.dquote +:+ s) +:+ json.dquote.

(** The builder after the loop of [write_pairs] over the segments [segs],
    entered at index [i]. *)
Definition joined_from (i : nat) (segs : list string) : string :=
  match segs with
  | [] => ""
  | _ => (if (0 <? i)%nat then "&" else "") +:+ String.concat "&" segs
  end.

(** The change of case at the end of [GenerateSignature]. *)
Definition with_case (c : Config) (s : string) : string :=
  if UpperCase c then strings_ToUpper s else strings_ToLower s.

(** The cases of the switch: three plain digests, three HMACs. *)
Definition plain_algorithms : list (SignAlgorithm * (unit -> hash.Hash)) :=
  [(MD5, md5_New); (SHA1, sha1_New); (SHA256, sha256_New)].

Definition hmac_algorithms : list (SignAlgorithm * (unit -> hash.Hash)) :=
  [(HMAC_MD5, md5_New); (HMAC_SHA1, sha1_New); (HMAC_SHA256, sha256_New)].

(** ** Inputs of the scenarios *)

(** [100.50] and [123.456] as [float64]: mantissa and binary exponent. *)
Definition float_100_5 : spec_float := S754_finite false 7072058789855232 (-46).

Definition float_200 : spec_float := S754_finite false 7036874417766400 (-45).

(** [100.5000004] as [float64]: above [100.50] by less than half of
    [10^-6]. *)
Definition float_100_5000004 : spec_float :=
  S754_finite false 7072058818002730 (-46).

Definition md5_config : Config :=
  {| Secret := "testSecret"; Algorithm := MD5; SignatureKey := "";
     IgnoreKeys := []; UpperCase := false |}.

Definition md5_params : gmap string Value :=
  <["id" := VInt Int 123]>
    (<["name" := VString "test"]>
       (<["amount" := VFloat Float64 float_100_5]> ∅)).

Definition md5_signature : string := "822bbbdf5a39eb17452e85479724b5df".

Definition hmac_config : Config :=
  {| Secret := "testSecret"; Algorithm := HMAC_SHA256; SignatureKey := "sign";
     IgnoreKeys := []; UpperCase := true |}.

Definition hmac_signature : string :=
  "F2CDB7ADDB512E29B75F1F96DAB4E3B045F98B0396B98C17B643391EF358754E".

Definition sha1_config : Config :=
  {| Secret := "testSecret"; Algorithm := SHA1; SignatureKey := "sign";
     IgnoreKeys := ["timestamp"; "nonce"]; UpperCase := false |}.

Definition sha1_params : gmap string Value :=
  <["id" := VInt Int 123]>
    (<["name" := VString "test"]>
       (<["amount" := VFloat Float64 float_100_5]>
          (<["timestamp" := VString "1634567890"]>
             (<["nonce" := VString "random_string"]> ∅)))).

Definition sha1_params_ignored_changed : gmap string Value :=
  <["nonce" := VString "different_random_string"]>
    (<["timestamp" := VString "9999999999"]> sha1_params).

Definition sha1_params_amount_changed : gmap string Value :=
  <["amount" := VFloat Float64 float_200]> sha1_params.

Definition sha1_signature : string :=
  "c98975166a00393fe3728451e1a97d9d197007ec".

(** The same number under key [a], once as an [int] and once as a
    [string]. *)
Definition retyped_before : gmap string Value := {["a" := VInt Int 1]}.
Definition retyped_after : gmap string Value := {["a" := VString "1"]}.
Definition retyped_signature : string := "460ea917b5422507345ff2a30300aee9".

(** The amount of [md5_params] raised by [0.0000004]. *)
Definition rounded_after : gmap string Value :=
  <["amount" := VFloat Float64 float_100_5000004]> md5_params.

(** One value that contains the delimiters, against two plain values. *)
Definition injection_params_1 : gmap string Value :=
  {["a" := VString "1&b=2"]}.
Definition injection_params_2 : gmap string Value :=
  <["a" := VString "1"]> {["b" := VString "2"]}.

Definition sign_only_params : gmap string Value :=
  {["sign" := VString "0123"]}.

(** * Properties *)

(** ** Strings *)

Lemma string_app_cons (a : ascii) (s1 s2 : string) :
  String a s1 +:+ s2 = String a (s1 +:+ s2).
Proof. reflexivity. Qed.

Lemma string_app_nil_l (s : string) : "" +:+ s = s.
Proof. reflexivity. Qed.

Lemma string_app_nil_r (s : string) : s +:+ "" = s.
Proof.
  induction s as [|a s IH]; [done|]. by rewrite string_app_cons, IH.
Qed.

Lemma string_app_assoc (s1 s2 s3 : string) :
  (s1 +:+ s2) +:+ s3 = s1 +:+ (s2 +:+ s3).
Proof.
  induction s1 as [|a s1 IH]; [done|]. by rewrite !string_app_cons, IH.
Qed.

Lemma string_app_length (s1 s2 : string) :
  String.length (s1 +:+ s2) = (String.length s1 + String.length s2)%nat.
Proof.
  induction s1 as [|a s1 IH]; [done|].
  rewrite string_app_cons. cbn [String.length]. by rewrite IH.
Qed.

Lemma string_app_cons_neq (a : ascii) (x s : string) : String a x +:+ s ≠ s.
Proof.
  intros Heq. apply (f_equal String.length) in Heq.
  rewrite string_app_length in Heq. cbn [String.length] in Heq. lia.
Qed.

Lemma string_app_inv_tail (s x y : string) : x +:+ s = y +:+ s → x = y.
Proof.
  revert y. induction x as [|a x IH]; intros [|b y] Heq; [done|..].
  - rewrite string_app_nil_l in Heq. symmetry in Heq.
    by apply string_app_cons_neq in Heq.
  - rewrite string_app_nil_l in Heq. by apply string_app_cons_neq in Heq.
  - rewrite !string_app_cons in Heq. injection Heq as -> Heq.
    f_equal. by apply IH.
Qed.

(** A segment of a joined string sits between a prefix and a suffix that
    do not depend on it. *)
Lemma concat_split (sep : string) (A B : list string) :
  ∃ pre post, ∀ X, String.concat sep (A ++ X :: B) = (pre +:+ X) +:+ post.
Proof.
  induction A as [|a A (pre & post & IH)].
  - exists "". destruct B as [|b B].
    + exists "". intros X. cbn. by rewrite string_app_nil_r.
    + exists (sep +:+ String.concat sep (b :: B)). by intros X.
  - exists ((a +:+ sep) +:+ pre), post. intros X.
    specialize (IH X). destruct A as [|a' A]; cbn [app String.concat] in *;
      rewrite IH; by rewrite !string_app_assoc.
Qed.

(** ** The digests are the standard ones *)

Example md5_abc :
  hex.EncodeToString (md5.Sum (string_to_bytes "abc"))
  = "900150983cd24fb0d6963f7d28e17f72".
Proof. vm_compute. reflexivity. Qed.

Example md5_empty :
  hex.EncodeToString (md5.Sum []) = "d41d8cd98f00b204e9800998ecf8427e".
Proof. vm_compute. reflexivity. Qed.

Example sha1_abc :
  hex.EncodeToString (sha1.Sum (string_to_bytes "abc"))
  = "a9993e364706816aba3e25717850c26c9cd0d89d".
Proof. vm_compute. reflexivity. Qed.

Example sha256_abc :
  hex.EncodeToString (sha256.Sum (string_to_bytes "abc"))
  = "ba7816bf8f01cfea414140de5dae2223b00361a396177a9cb410ff61f20015ad".
Proof. vm_compute. reflexivity. Qed.

(** Two blocks: 56 bytes of message push the length into a second block. *)
Example sha256_two_blocks :
  hex.EncodeToString
    (sha256.Sum
       (string_to_bytes
          "aaaaaaaaaaaaaaaaaaaaaaaaaaaaaaaaaaaaaaaaaaaaaaaaaaaaaaaa"))
  = "b35439a4ac6f0948b6d6f9e3c6af0f5f590ce20f1bde7090ef7970686ec6738a".
Proof. vm_compute. reflexivity. Qed.

Example hmac_md5_fox :
  hex.EncodeToString
    (hmac.mac md5_New (string_to_bytes "key")
       (string_to_bytes "The quick brown fox jumps over the lazy dog"))
  = "80070713463e7749b90c2dc24911e275".
Proof. vm_compute. reflexivity. Qed.

Example hmac_sha1_fox :
  hex.EncodeToString
    (hmac.mac sha1_New (string_to_bytes "key")
       (string_to_bytes "The quick brown fox jumps over the lazy dog"))
  = "de7c9b85b8b78aa6bc8a7a36f70a90701c9db4d9".
Proof. vm_compute. reflexivity. Qed.

Example hmac_sha256_empty_key :
  hex.EncodeToString (hmac.mac sha256_New [] [])
  = "b613679a0814d9ec772f95d778c35fc5ff1697c493715653c6c712144292c5ad".
Proof. vm_compute. reflexivity. Qed.

(** ** The state monad: loops *)

Lemma for_range_assign (c : loc) (l : list (string * Value)) :
  ∀ (m0 : gmap string Value) (h : heap),
    for_range l (fun kv => map_assign c kv.1 kv.2) (<[c := m0]> h)
    = (tt, <[c := fold_left (fun m kv => <[kv.1 := kv.2]> m) l m0]> h).
Proof.
  induction l as [|[k x] l IH]; intros m0 h; [done|].
  cbn [for_range fold_left]. unfold mbind, State_bind, map_assign at 1.
  rewrite alter_insert_eq. apply IH.
Qed.

Lemma for_range_delete (c : loc) (ks : list string) :
  ∀ (m0 : gmap string Value) (h : heap),
    for_range ks (fun key => map_delete c key) (<[c := m0]> h)
    = (tt, <[c := fold_left (fun m k => delete k m) ks m0]> h).
Proof.
  induction ks as [|k ks IH]; intros m0 h; [done|].
  cbn [for_range fold_left]. unfold mbind, State_bind, map_delete at 1.
  rewrite alter_insert_eq. apply IH.
Qed.

Lemma fold_insert_union (l : list (string * Value)) :
  ∀ m0 : gmap string Value,
    fold_left (fun m kv => <[kv.1 := kv.2]> m) l m0
    = list_to_map (reverse l) ∪ m0.
Proof.
  induction l as [|[k x] l IH]; intros m0; cbn [fold_left].
  - rewrite reverse_nil. cbn. by rewrite (left_id_L ∅ (∪)).
  - rewrite IH, reverse_cons, list_to_map_app. cbn [list_to_map foldr].
    rewrite <- (assoc_L (∪)). f_equal.
    cbn [fst snd]. by rewrite insert_empty, <- insert_union_singleton_l.
Qed.

(** Copying entry by entry rebuilds the map. *)
Lemma fold_insert_map_to_list (m : gmap string Value) :
  fold_left (fun m' kv => <[kv.1 := kv.2]> m') (map_to_list m) ∅ = m.
Proof.
  rewrite fold_insert_union, (right_id_L ∅ (∪)).
  rewrite <- (list_to_map_to_list m) at 2.
  apply list_to_map_proper.
  - rewrite fmap_reverse, reverse_Permutation. apply NoDup_fst_map_to_list.
  - apply reverse_Permutation.
Qed.

Lemma fold_append_keys (l : list (string * Value)) :
  ∀ acc : list string,
    fold_left (fun keys kv => keys ++ [kv.1])%list l acc = (acc ++ map fst l)%list.
Proof.
  induction l as [|kv l IH]; intros acc; cbn [fold_left map].
  - by rewrite app_nil_r.
  - rewrite IH. by rewrite <- app_assoc.
Qed.

Lemma write_pairs_spec (c : loc) (h : heap) (keys : list string) :
  ∀ (i : nat) (builder : string),
    write_pairs c i keys builder h
    = (builder +:+ joined_from i (map (pair_of (h !!! c)) keys), h).
Proof.
  induction keys as [|k keys IH]; intros i builder.
  - cbn. by rewrite string_app_nil_r.
  - cbn [write_pairs]. unfold mbind, State_bind, map_index at 1.
    rewrite IH. f_equal.
    cbn [map joined_from]. unfold pair_of at 2.
    destruct keys as [|k' keys], i as [|i]; cbn;
      by rewrite ?string_app_nil_r, ?string_app_assoc.
Qed.

(** ** The store *)

Lemma fresh_loc_unallocated (h : heap) : h !! fresh (dom h) = None.
Proof. apply not_elem_of_dom, is_fresh. Qed.

Lemma read_after_make (h : heap) (p : loc) :
  (<[fresh (dom h) := ∅]> h : heap) !!! p = h !!! p.
Proof.
  destruct (decide (p = fresh (dom h))) as [->|Hne].
  - rewrite lookup_total_insert_eq, lookup_total_alt.
    by rewrite fresh_loc_unallocated.
  - by rewrite lookup_total_insert_ne.
Qed.

(** ** Filtering *)

Section filtering.
Context (c : Config).

Lemma filterParams_lookup (m : gmap string Value) (k : string) :
  filterParams c m !! k = if decide (excluded c k) then None else m !! k.
Proof.
  unfold filterParams, excluded.
  assert (∀ (ks : list string) (m0 : gmap string Value),
    fold_left (fun m k => delete k m) ks m0 !! k
    = if decide (k ∈ ks) then None else m0 !! k) as Hfold.
  { induction ks as [|k' ks IH]; intros m0; cbn [fold_left].
    - by rewrite decide_False by set_solver.
    - rewrite IH. destruct (decide (k = k')) as [->|Hne].
      + rewrite lookup_delete_eq. rewrite (decide_True (P := k' ∈ k' :: ks)) by set_solver.
        by destruct (decide _).
      + rewrite lookup_delete_ne by done.
        destruct (decide (k ∈ ks)), (decide (k ∈ k' :: ks)); set_solver. }
  rewrite Hfold.
  destruct (decide (k = SignatureKey c)) as [->|Hne].
  - rewrite lookup_delete_eq. rewrite (decide_True (P := _ ∨ _)) by auto.
    by destruct (decide _).
  - rewrite lookup_delete_ne by done.
    destruct (decide (k ∈ IgnoreKeys c)), (decide (_ ∨ _)); naive_solver.
Qed.

Lemma filterParams_empty : filterParams c ∅ = ∅.
Proof.
  apply map_eq; intros k. rewrite filterParams_lookup, lookup_empty.
  by destruct (decide _).
Qed.

Lemma filterParams_id (m : gmap string Value) :
  (∀ k, k ∈ dom m → ¬ excluded c k) → filterParams c m = m.
Proof.
  intros Hkeep. apply map_eq; intros k. rewrite filterParams_lookup.
  destruct (decide (excluded c k)) as [Hex|]; [|done].
  symmetry. apply not_elem_of_dom. intros Hin. by apply (Hkeep k).
Qed.

Lemma filterParams_all (m : gmap string Value) :
  (∀ k, k ∈ dom m → excluded c k) → filterParams c m = ∅.
Proof.
  intros Hall. apply map_eq; intros k.
  rewrite filterParams_lookup, lookup_empty.
  destruct (decide (excluded c k)) as [|Hne]; [done|].
  apply not_elem_of_dom. intros Hin. by apply Hne, Hall.
Qed.

Lemma filterParams_agree (m m' : gmap string Value) :
  (∀ k, ¬ excluded c k → m !! k = m' !! k) →
  filterParams c m = filterParams c m'.
Proof.
  intros Hag. apply map_eq; intros k. rewrite !filterParams_lookup.
  destruct (decide (excluded c k)); [done|]. by apply Hag.
Qed.

Lemma filterParams_insert (m : gmap string Value) k y :
  ¬ excluded c k →
  filterParams c (<[k := y]> m) = <[k := y]> (filterParams c m).
Proof.
  intros Hk. apply map_eq; intros k'. rewrite filterParams_lookup.
  destruct (decide (k = k')) as [<-|Hne].
  - rewrite !lookup_insert_eq. by rewrite decide_False.
  - rewrite !lookup_insert_ne by done. by rewrite filterParams_lookup.
Qed.

Lemma filterParams_delete_signature (m : gmap string Value) :
  filterParams c (delete (SignatureKey c) m) = filterParams c m.
Proof.
  apply filterParams_agree. intros k Hk. apply lookup_delete_ne.
  intros <-. apply Hk. by left.
Qed.

Lemma canonical_filtered (m m' : gmap string Value) :
  filterParams c m = filterParams c m' → canonical c m = canonical c m'.
Proof. unfold canonical, joinedPairs. by intros ->. Qed.

Lemma read_after_copy (h : heap) (p : loc) :
  (<[fresh (dom h) := filterParams c (h !!! p)]> h : heap) !!! p = h !!! p.
Proof.
  destruct (decide (p = fresh (dom h))) as [->|Hne].
  - rewrite lookup_total_insert_eq, lookup_total_alt.
    rewrite fresh_loc_unallocated. apply filterParams_empty.
  - by rewrite lookup_total_insert_ne.
Qed.

Lemma store_grows (h : heap) (p : loc) :
  h ⊆ <[fresh (dom h) := filterParams c (h !!! p)]> h.
Proof. apply insert_subseteq, fresh_loc_unallocated. Qed.

End filtering.

(** ** Sorted keys *)

Lemma sort_Strings_unique (l l' : list string) :
  Sorted String.le l → l ≡ₚ l' → sort_Strings l' = l.
Proof.
  intros Hs Hp. apply (Sorted_unique String.le); [|done|].
  - apply (Sorted_merge_sort String.le).
  - unfold sort_Strings. by rewrite merge_sort_Permutation.
Qed.

(** The order in which [range] visits a map does not show after the sort. *)
Lemma sort_Strings_perm (l l' : list string) :
  l ≡ₚ l' → sort_Strings l = sort_Strings l'.
Proof.
  intros Hp. symmetry. apply sort_Strings_unique.
  - apply (Sorted_merge_sort String.le).
  - unfold sort_Strings. by rewrite merge_sort_Permutation.
Qed.

Lemma elem_of_keys {A} (m : gmap string A) (k : string) :
  k ∈ map fst (map_to_list m) ↔ k ∈ dom m.
Proof.
  rewrite elem_of_dom. change (map fst (map_to_list m)) with ((map_to_list m).*1).
  rewrite list_elem_of_fmap. split.
  - intros [[k' x] [-> Hin]]. apply elem_of_map_to_list in Hin. by exists x.
  - intros [x Hx]. exists (k, x). split; [done|]. by apply elem_of_map_to_list.
Qed.

Lemma keys_perm {A B} (m : gmap string A) (m' : gmap string B) :
  dom m = dom m' → map fst (map_to_list m) ≡ₚ map fst (map_to_list m').
Proof.
  intros Hdom. apply NoDup_Permutation; try apply NoDup_fst_map_to_list.
  intros k. by rewrite !elem_of_keys, Hdom.
Qed.

Lemma sorted_keys_dom {A B} (m : gmap string A) (m' : gmap string B) :
  dom m = dom m' → sorted_keys m = sorted_keys m'.
Proof. intros Hdom. apply sort_Strings_perm, keys_perm, Hdom. Qed.


Lemma sorted_keys_perm {A} (m : gmap string A) :
  sorted_keys m ≡ₚ map fst (map_to_list m).
Proof. apply merge_sort_Permutation. Qed.

Lemma elem_of_sorted_keys {A} (m : gmap string A) (k : string) :
  k ∈ sorted_keys m ↔ k ∈ dom m.
Proof. by rewrite sorted_keys_perm, elem_of_keys. Qed.

Lemma NoDup_sorted_keys {A} (m : gmap string A) : NoDup (sorted_keys m).
Proof. rewrite sorted_keys_perm. apply NoDup_fst_map_to_list. Qed.

Lemma sorted_keys_empty {A} : sorted_keys (∅ : gmap string A) = [].
Proof. unfold sorted_keys. by rewrite map_to_list_empty. Qed.

Lemma sorted_keys_is {A} (m : gmap string A) (l : list string) :
  Sorted String.le l → NoDup l → (∀ k, k ∈ l ↔ k ∈ dom m) →
  sorted_keys m = l.
Proof.
  intros Hs Hnd Hin. apply sort_Strings_unique; [done|].
  apply NoDup_Permutation; [done|apply NoDup_fst_map_to_list|].
  intros k. by rewrite elem_of_keys.
Qed.

(** ** The methods as functions of the parameters *)

Lemma stringToSign_spec (v : SignValidator) (params : loc) (h : heap) :
  stringToSign v params h
  = (canonical (config v) (h !!! params),
     <[fresh (dom h) := filterParams (config v) (h !!! params)]> h).
Proof.
  unfold stringToSign, mbind, State_bind, make_map.
  unfold map_range at 1. rewrite read_after_make.
  rewrite for_range_assign, fold_insert_map_to_list.
  unfold map_delete at 1. rewrite alter_insert_eq.
  rewrite for_range_delete. fold (filterParams (config v) (h !!! params)).
  unfold map_range. rewrite lookup_total_insert_eq.
  rewrite fold_append_keys, app_nil_l.
  rewrite write_pairs_spec, lookup_total_insert_eq.
  unfold mret, State_ret. f_equal.
  unfold canonical, joinedPairs, joined_from, sorted_keys.
  destruct (map _ (sort_Strings _)); by destruct (decide _).
Qed.

Lemma GenerateSignature_spec (v : SignValidator) (params : loc) (h : heap) :
  GenerateSignature v params h
  = (signString v (canonical (config v) (h !!! params)),
     <[fresh (dom h) := filterParams (config v) (h !!! params)]> h).
Proof.
  unfold GenerateSignature, mbind, State_bind.
  by rewrite stringToSign_spec.
Qed.

Lemma Validate_spec (v : SignValidator) (params : loc) (signature : string)
    (h : heap) :
  Validate v params signature h
  = (match signString v (canonical (config v) (h !!! params)) with
     | (_, Some err) => (false, Some err)
     | (expectedSign, None) => (bool_decide (expectedSign = signature), None)
     end,
     <[fresh (dom h) := filterParams (config v) (h !!! params)]> h).
Proof.
  unfold Validate, mbind, State_bind. rewrite GenerateSignature_spec.
  by destruct (signString _ _) as [s [e|]].
Qed.

Lemma ValidateWithSignInParams_spec (v : SignValidator) (params : loc)
    (h : heap) :
  ValidateWithSignInParams v params h
  = match (h !!! params) !! SignatureKey (config v) with
    | None => ((false, Some (errors_New "签名参数不存在")), h)
    | Some (VString signature) => Validate v params signature h
    | Some _ => ((false, Some (errors_New "签名参数不是字符串类型")), h)
    end.
Proof.
  unfold ValidateWithSignInParams, mbind, State_bind, map_lookup.
  by destruct (_ !! _) as [[]|].
Qed.

(** ** The switch on the algorithm *)

Lemma signString_recognized (v : SignValidator) (s : string) :
  recognized (Algorithm (config v)) → ∃ sig, signString v s = (sig, None).
Proof.
  unfold recognized, signString. intros Hrec.
  repeat (destruct (decide _); [by eexists|]).
  exfalso. set_solver.
Qed.

Lemma signString_unrecognized (v : SignValidator) (s : string) :
  ¬ recognized (Algorithm (config v)) →
  signString v s
  = ("", Some (errors_New ("不支持的签名算法: " +:+ Algorithm (config v)))).
Proof.
  unfold recognized, signString. intros Hrec.
  repeat (destruct (decide _) as [Heq|_]; [exfalso; apply Hrec; rewrite Heq; set_solver|]).
  done.
Qed.

(** From [(Algorithm (config v), H) ∈ l] for a list [l] of cases of the
    switch: one goal per case, closed by evaluating the switch. *)
Ltac switch_case HH :=
  unfold signString, with_case;
  repeat (apply elem_of_cons in HH as [HH|HH];
          [injection HH as HH ->; rewrite HH; reflexivity|]);
  by apply elem_of_nil in HH.

(** Whether the switch fails depends on the algorithm alone. *)
Lemma signString_error_uniform (v : SignValidator) (s s' : string) x e :
  signString v s' = (x, Some e) → signString v s = (x, Some e).
Proof.
  intros Hs'. destruct (decide (recognized (Algorithm (config v)))) as [Hr|Hr].
  - destruct (signString_recognized v s' Hr) as [sig Hsig]. congruence.
  - rewrite signString_unrecognized in Hs' |- * by done. done.
Qed.

(** ** One value changed *)

(** Changing one kept value changes the canonical string as soon as the
    rendering of the value changes. *)
Lemma canonical_insert_inj (c : Config) (m : gmap string Value) k x y :
  ¬ excluded c k → m !! k = Some x →
  canonical c (<[k := y]> m) = canonical c m →
  convertToString y = convertToString x.
Proof.
  intros Hk Hx Heq.
  assert (joinedPairs c (<[k := y]> m) = joinedPairs c m) as Hj.
  { unfold canonical in Heq. destruct (decide (Secret c ≠ "")); [|done].
    rewrite !string_app_assoc in Heq. by apply string_app_inv_tail in Heq. }
  clear Heq. unfold joinedPairs in Hj. cbv zeta in Hj.
  rewrite filterParams_insert in Hj by done.
  set (fm := filterParams c m) in *.
  assert (fm !! k = Some x) as Hfx.
  { unfold fm. rewrite filterParams_lookup. by rewrite decide_False. }
  rewrite (sorted_keys_dom (<[k := y]> fm) fm) in Hj.
  2:{ rewrite dom_insert_L. apply elem_of_dom_2 in Hfx. set_solver. }
  assert (k ∈ sorted_keys fm) as Hin.
  { apply elem_of_sorted_keys. by apply elem_of_dom_2 in Hfx. }
  pose proof (NoDup_sorted_keys fm) as Hnd.
  apply list_elem_of_split in Hin as (A & B & Hks).
  rewrite Hks in Hj, Hnd. apply NoDup_app in Hnd as (_ & HA & HB).
  apply NoDup_cons in HB as [HB _].
  rewrite !map_app in Hj. cbn [map] in Hj.
  assert (∀ l, k ∉ l → map (pair_of (<[k := y]> fm)) l = map (pair_of fm) l)
    as Hsame.
  { intros l Hl. apply map_ext_in. intros k' Hk'. unfold pair_of.
    rewrite lookup_insert_ne; [done|]. intros ->. apply Hl.
    by apply list_elem_of_In. }
  rewrite (Hsame A), (Hsame B) in Hj by (done || (intros ?; by eapply HA; [|left])).
  destruct (concat_split "&" (map (pair_of fm) A) (map (pair_of fm) B))
    as (pre & post & Hsplit).
  rewrite !Hsplit in Hj. apply string_app_inv_tail in Hj.
  apply (inj (String.app pre)) in Hj. unfold pair_of in Hj.
  rewrite lookup_insert_eq, Hfx in Hj. cbn [default] in Hj.
  by apply (inj (String.app _)) in Hj.
Qed.

(** ** Delimiter injection *)

Lemma canonical_collision (c : Config) (ka kb : string) :
  ka ≠ kb → String.le ka kb → ¬ excluded c ka → ¬ excluded c kb →
  canonical c {[ka := VString (("1&" +:+ kb) +:+ "=2")]}
  = canonical c (<[ka := VString "1"]> {[kb := VString "2"]}).
Proof.
  intros Hne Hle Ha Hb.
  assert (joinedPairs c {[ka := VString (("1&" +:+ kb) +:+ "=2")]}
          = joinedPairs c (<[ka := VString "1"]> {[kb := VString "2"]})) as Hj.
  { unfold joinedPairs. cbv zeta. rewrite !filterParams_id.
    - rewrite (sorted_keys_is _ [ka]), (sorted_keys_is _ [ka; kb]).
      + cbn [map String.concat]. unfold pair_of.
        rewrite lookup_singleton_eq, lookup_insert_eq, lookup_insert_ne,
          lookup_singleton_eq by done.
        cbn [default convertToString]. by rewrite !string_app_assoc.
      + repeat constructor. done.
      + apply NoDup_cons. split; [by rewrite list_elem_of_singleton|].
        apply NoDup_singleton.
      + intros k. rewrite dom_insert_L, dom_singleton_L. set_solver.
      + repeat constructor.
      + apply NoDup_singleton.
      + intros k. rewrite dom_singleton_L. set_solver.
    - intros k. rewrite dom_insert_L, dom_singleton_L.
      intros [->%elem_of_singleton| ->%elem_of_singleton]%elem_of_union; done.
    - intros k. rewrite dom_singleton_L. by intros ->%elem_of_singleton. }
  unfold canonical. by rewrite Hj.
Qed.

Lemma two_kept_keys (c : Config) :
  ∃ ka kb, ka ≠ kb ∧ String.le ka kb ∧ ¬ excluded c ka ∧ ¬ excluded c kb.
Proof.
  set (E := list_to_set (SignatureKey c :: IgnoreKeys c) : gset string).
  set (k1 := fresh E). set (k2 := fresh ({[k1]} ∪ E)).
  assert (k1 ∉ E) as H1 by apply is_fresh.
  assert (k2 ∉ {[k1]} ∪ E) as H2 by apply is_fresh.
  assert (∀ k, k ∉ E → ¬ excluded c k) as Hex.
  { intros k Hk [->|Hin]; apply Hk; unfold E.
    - apply elem_of_list_to_set, list_elem_of_here.
    - by apply elem_of_list_to_set, list_elem_of_further. }
  assert (k1 ≠ k2) as Hne by (intros Heq; apply H2; rewrite <- Heq; set_solver).
  assert (k2 ∉ E) as H2' by set_solver.
  destruct (total String.le k1 k2).
  - exists k1, k2. auto.
  - exists k2, k1. auto.
Qed.

(** ** Renderings *)










(** ** The scenarios of the test suite *)

(** [TestSignValidator_HMAC_SHA256]: a [sign] entry already in the
    parameters is left out of the signature, and the upper-case signature
    put back under [sign] validates. *)
Example scenario_hmac_sha256 :
  (GenerateSignature (NewSignValidator hmac_config) 1%positive
     {[1%positive := <["sign" := VString "should_be_ignored"]> md5_params]}).1
  = (hmac_signature, None)
  ∧ (ValidateWithSignInParams (NewSignValidator hmac_config) 1%positive
       {[1%positive := <["sign" := VString hmac_signature]> md5_params]}).1
    = (true, None).
Proof. split; vm_compute; reflexivity. Qed.

(** [TestConvertToString], the map case. *)
Example scenario_map_to_json :
  convertToString (VOther (EMap (<["b" := EInt 2]> {["a" := EInt 1]})))
  = "{" +:+ quoted "a" +:+ ":1," +:+ quoted "b" +:+ ":2}".
Proof. vm_compute. reflexivity. Qed.

(** * The claims *)

(** C1 (round trip).  Under a validator whose algorithm is one of the six
    recognized ones, [GenerateSignature] succeeds on every parameter map,
    and [Validate] on the same parameters and the signature just generated
    returns [true] with no error. *)
Theorem C1_round_trip (v : SignValidator) (params : loc) (h : heap) :
  recognized (Algorithm (config v)) →
  ∃ signature h1,
    GenerateSignature v params h = ((signature, None), h1)
    ∧ (Validate v params signature h1).1 = (true, None).
Proof.
  intros Hrec.
  destruct (signString_recognized v (canonical (config v) (h !!! params)) Hrec)
    as [signature Hsig].
  exists signature. eexists. split.
  - rewrite GenerateSignature_spec, Hsig. reflexivity.
  - rewrite Validate_spec, read_after_copy, Hsig. cbn.
    by rewrite bool_decide_eq_true_2.
Qed.

Lemma C1_round_trip_witness :
  recognized (Algorithm (config (NewSignValidator md5_config)))
  ∧ ∃ signature h1,
      GenerateSignature (NewSignValidator md5_config) 1%positive
        {[1%positive := md5_params]} = ((signature, None), h1)
      ∧ (Validate (NewSignValidator md5_config) 1%positive signature h1).1
        = (true, None).
Proof.
  assert (recognized (Algorithm (config (NewSignValidator md5_config)))) as H.
  { apply list_elem_of_here. }
  split; [exact H|]. exact (C1_round_trip _ _ _ H).
Defined.

(** C2 (exclusion), as amended.  Two parameter maps that agree on every key
    that is neither the signature key nor an ignored key get the same
    outcome from [Validate], whatever the signature.  Changing the value of
    a kept key to a value with a different rendering changes the string
    that is signed; a signature that was valid is then refused, unless the
    two different strings have the same signature. *)
Theorem C2_exclusion (v : SignValidator) (p p' : loc) (h h' : heap)
    (signature : string) :
  ((∀ k, ¬ excluded (config v) k → (h' !!! p') !! k = (h !!! p) !! k) →
     (Validate v p' signature h').1 = (Validate v p signature h).1)
  ∧ (∀ k x y,
       ¬ excluded (config v) k →
       (h !!! p) !! k = Some x →
       h' !!! p' = <[k := y]> (h !!! p) →
       convertToString y ≠ convertToString x →
       (Validate v p signature h).1 = (true, None) →
       (stringToSign v p' h').1 ≠ (stringToSign v p h).1
       ∧ ((Validate v p' signature h').1 = (false, None)
          ∨ signString v (stringToSign v p' h').1
            = signString v (stringToSign v p h).1)).
Proof.
  rewrite !Validate_spec, !stringToSign_spec. cbn [fst]. split.
  - intros Hag. by rewrite (canonical_filtered _ _ _
                              (filterParams_agree (config v) _ _ Hag)).
  - intros k x y Hk Hx -> Hyx HV. split.
    + intros Heq. apply Hyx. by eapply canonical_insert_inj.
    + destruct (signString v (canonical _ (<[k:=y]> _))) as [sig' [e|]] eqn:Hs'.
      * rewrite (signString_error_uniform v _ _ _ _ Hs') in HV. discriminate HV.
      * destruct (signString v (canonical _ (h !!! p))) as [sig [e|]];
          [discriminate HV|].
        injection HV as HV. apply bool_decide_eq_true_1 in HV. subst sig.
        destruct (decide (sig' = signature)) as [->|Hne]; [by right|left].
        by rewrite bool_decide_eq_false_2.
Qed.

Lemma C2_exclusion_witness :
  (Validate (NewSignValidator sha1_config) 1%positive sha1_signature
     {[1%positive := sha1_params_ignored_changed]}).1
  = (Validate (NewSignValidator sha1_config) 1%positive sha1_signature
       {[1%positive := sha1_params]}).1
  ∧ (stringToSign (NewSignValidator sha1_config) 1%positive
       {[1%positive := sha1_params_amount_changed]}).1
    ≠ (stringToSign (NewSignValidator sha1_config) 1%positive
         {[1%positive := sha1_params]}).1
  ∧ ((Validate (NewSignValidator sha1_config) 1%positive sha1_signature
        {[1%positive := sha1_params_amount_changed]}).1 = (false, None)
     ∨ signString (NewSignValidator sha1_config)
         (stringToSign (NewSignValidator sha1_config) 1%positive
            {[1%positive := sha1_params_amount_changed]}).1
       = signString (NewSignValidator sha1_config)
           (stringToSign (NewSignValidator sha1_config) 1%positive
              {[1%positive := sha1_params]}).1).
Proof.
  split.
  - apply (proj1 (C2_exclusion (NewSignValidator sha1_config) 1%positive
                    1%positive {[1%positive := sha1_params]}
                    {[1%positive := sha1_params_ignored_changed]}
                    sha1_signature)).
    intros k Hk. rewrite !lookup_total_singleton_eq.
    unfold sha1_params_ignored_changed.
    rewrite !lookup_insert_ne; [done|..]; intros <-; apply Hk; right;
      vm_compute; [apply list_elem_of_here
                  | apply list_elem_of_further, list_elem_of_here].
  - apply (proj2 (C2_exclusion (NewSignValidator sha1_config) 1%positive
                    1%positive {[1%positive := sha1_params]}
                    {[1%positive := sha1_params_amount_changed]}
                    sha1_signature)
             "amount" (VFloat Float64 float_100_5) (VFloat Float64 float_200)).
    + apply (bool_decide_eq_false_1 _). vm_compute. reflexivity.
    + vm_compute. reflexivity.
    + by rewrite !lookup_total_singleton_eq.
    + vm_compute. discriminate.
    + vm_compute. reflexivity.
Defined.

(** C2 as stated fails, twice.  Under key [a], which is kept, the [int] 1
    is replaced by the [string] 1: the value has changed, the signature of
    the first map is still accepted for the second.  Under key [amount],
    which is kept, [100.50] is raised to [100.5000004]: both render as
    [100.500000], and the signature of the scenario is still accepted. *)
Lemma C2_counterexample :
  (¬ excluded (config (NewSignValidator md5_config)) "a"
   ∧ retyped_after = <["a" := VString "1"]> retyped_before
   ∧ retyped_after !! "a" ≠ retyped_before !! "a"
   ∧ (Validate (NewSignValidator md5_config) 1%positive retyped_signature
        {[1%positive := retyped_before]}).1 = (true, None)
   ∧ (Validate (NewSignValidator md5_config) 1%positive retyped_signature
        {[1%positive := retyped_after]}).1 = (true, None))
  ∧ (¬ excluded (config (NewSignValidator md5_config)) "amount"
     ∧ rounded_after !! "amount" ≠ md5_params !! "amount"
     ∧ (Validate (NewSignValidator md5_config) 1%positive md5_signature
          {[1%positive := md5_params]}).1 = (true, None)
     ∧ (Validate (NewSignValidator md5_config) 1%positive md5_signature
          {[1%positive := rounded_after]}).1 = (true, None)).
Proof.
  split.
  - split; [|split; [|split; [|split]]].
    + apply (bool_decide_eq_false_1 _). vm_compute. reflexivity.
    + unfold retyped_after, retyped_before. by rewrite insert_singleton_eq.
    + vm_compute. discriminate.
    + vm_compute. reflexivity.
    + vm_compute. reflexivity.
  - split; [|split; [|split]].
    + apply (bool_decide_eq_false_1 _). vm_compute. reflexivity.
    + vm_compute. discriminate.
    + vm_compute. reflexivity.
    + vm_compute. reflexivity.
Qed.

(** C3 (MD5 scenario).  With secret [testSecret], algorithm MD5 and the
    parameters id=123, name=test, amount=100.50, the string that is signed
    is [amount=100.500000&id=123&name=test&key=testSecret]; the signature
    is the hexadecimal MD5 digest of that string, in lower case. *)
Theorem C3_md5_scenario (params : loc) (h : heap) :
  h !!! params = md5_params →
  (stringToSign (NewSignValidator md5_config) params h).1
  = "amount=100.500000&id=123&name=test&key=testSecret"
  ∧ (GenerateSignature (NewSignValidator md5_config) params h).1
    = (hex.EncodeToString
         (md5.Sum
            (string_to_bytes
               "amount=100.500000&id=123&name=test&key=testSecret")),
       None)
  ∧ (GenerateSignature (NewSignValidator md5_config) params h).1
    = ("822bbbdf5a39eb17452e85479724b5df", None)
  ∧ strings_ToLower "822bbbdf5a39eb17452e85479724b5df"
    = "822bbbdf5a39eb17452e85479724b5df".
Proof.
  intros Hp.
  assert (canonical (config (NewSignValidator md5_config)) md5_params
          = "amount=100.500000&id=123&name=test&key=testSecret") as Hcan
    by (vm_compute; reflexivity).
  rewrite stringToSign_spec, GenerateSignature_spec, Hp, Hcan.
  repeat split; vm_compute; reflexivity.
Qed.

Lemma C3_md5_scenario_witness :
  ({[1%positive := md5_params]} : heap) !!! 1%positive = md5_params
  ∧ (GenerateSignature (NewSignValidator md5_config) 1%positive
       {[1%positive := md5_params]}).1
    = ("822bbbdf5a39eb17452e85479724b5df", None).
Proof.
  assert (({[1%positive := md5_params]} : heap) !!! 1%positive = md5_params)
    as H by (vm_compute; reflexivity).
  split; [exact H|]. exact (proj1 (proj2 (proj2 (C3_md5_scenario _ _ H)))).
Defined.

(** C4 (secret segment).  A non-empty secret is appended to the joined
    pairs as [&key=] followed by the secret; an empty secret appends
    nothing and is the empty HMAC key.  Under the three HMAC algorithms the
    digest is the HMAC, keyed with the bytes of the secret, of the string
    that already ends with the secret segment; under the three plain
    algorithms it is the digest of that string. *)
Theorem C4_secret_segment (v : SignValidator) (params : loc) (h : heap) :
  (Secret (config v) ≠ "" →
     (stringToSign v params h).1
     = (joinedPairs (config v) (h !!! params) +:+ "&key=") +:+ Secret (config v))
  ∧ (Secret (config v) = "" →
       (stringToSign v params h).1 = joinedPairs (config v) (h !!! params)
       ∧ string_to_bytes (Secret (config v)) = [])
  ∧ (∀ H, (Algorithm (config v), H) ∈ hmac_algorithms →
       (GenerateSignature v params h).1
       = (with_case (config v)
            (hex.EncodeToString
               (hmac.mac H (string_to_bytes (Secret (config v)))
                  (string_to_bytes (stringToSign v params h).1))),
          None))
  ∧ (∀ H, (Algorithm (config v), H) ∈ plain_algorithms →
       (GenerateSignature v params h).1
       = (with_case (config v)
            (hex.EncodeToString
               (hash.digest (H tt)
                  (string_to_bytes (stringToSign v params h).1))),
          None)).
Proof.
  rewrite stringToSign_spec, GenerateSignature_spec. cbn [fst].
  unfold canonical. split; [|split; [|split]].
  - intros Hs. by rewrite decide_True.
  - intros Hs. rewrite decide_False by (by intros []). by rewrite Hs.
  - intros H HH. unfold hmac_algorithms in HH.
    set (s := if decide _ then _ else _). clearbody s. switch_case HH.
  - intros H HH. unfold plain_algorithms in HH.
    set (s := if decide _ then _ else _). clearbody s. switch_case HH.
Qed.

Lemma C4_secret_segment_witness :
  Secret (config (NewSignValidator hmac_config)) ≠ ""
  ∧ (stringToSign (NewSignValidator hmac_config) 1%positive
       {[1%positive := md5_params]}).1
    = (joinedPairs (config (NewSignValidator hmac_config))
         (({[1%positive := md5_params]} : heap) !!! 1%positive) +:+ "&key=")
      +:+ Secret (config (NewSignValidator hmac_config))
  ∧ (GenerateSignature (NewSignValidator hmac_config) 1%positive
       {[1%positive := md5_params]}).1
    = (with_case (config (NewSignValidator hmac_config))
         (hex.EncodeToString
            (hmac.mac sha256_New
               (string_to_bytes (Secret (config (NewSignValidator hmac_config))))
               (string_to_bytes
                  (stringToSign (NewSignValidator hmac_config) 1%positive
                     {[1%positive := md5_params]}).1))),
       None).
Proof.
  assert (Secret (config (NewSignValidator hmac_config)) ≠ "") as Hs
    by discriminate.
  split; [exact Hs|]. split.
  - exact (proj1 (C4_secret_segment (NewSignValidator hmac_config) 1%positive
                    {[1%positive := md5_params]}) Hs).
  - apply (proj1 (proj2 (proj2 (C4_secret_segment
                                  (NewSignValidator hmac_config) 1%positive
                                  {[1%positive := md5_params]})))).
    apply list_elem_of_further, list_elem_of_further, list_elem_of_here.
Defined.




(** C6 (construction).  [NewSignValidator] is total; it replaces an empty
    signature key by [sign] and an empty algorithm by SHA-256 and keeps
    every other field.  An algorithm outside the six recognized ones is
    reported by [GenerateSignature] only: it returns the empty signature
    and an error whose message ends with the configured algorithm. *)
Theorem C6_construction (c : Config) :
  SignatureKey (config (NewSignValidator c))
  = (if decide (SignatureKey c = "") then "sign" else SignatureKey c)
  ∧ Algorithm (config (NewSignValidator c))
    = (if decide (Algorithm c = "") then SHA256 else Algorithm c)
  ∧ Secret (config (NewSignValidator c)) = Secret c
  ∧ IgnoreKeys (config (NewSignValidator c)) = IgnoreKeys c
  ∧ UpperCase (config (NewSignValidator c)) = UpperCase c
  ∧ ∀ (params : loc) (h : heap),
      (recognized (Algorithm (config (NewSignValidator c))) →
         ∃ signature,
           (GenerateSignature (NewSignValidator c) params h).1
           = (signature, None))
      ∧ (¬ recognized (Algorithm (config (NewSignValidator c))) →
           (GenerateSignature (NewSignValidator c) params h).1
           = ("", Some (errors_New ("不支持的签名算法: " +:+ Algorithm c)))).
Proof.
  assert (Algorithm (config (NewSignValidator c))
          = (if decide (Algorithm c = "") then SHA256 else Algorithm c)) as Halg.
  { unfold NewSignValidator.
    destruct (decide (SignatureKey c = "")), (decide (Algorithm c = ""));
      cbn; try done; by destruct (decide _). }
  repeat split; try done;
    try (unfold NewSignValidator;
         by destruct (decide (SignatureKey c = "")), (decide _)).
  - intros Hrec. rewrite GenerateSignature_spec. cbn [fst].
    by apply signString_recognized.
  - intros Hrec. rewrite GenerateSignature_spec. cbn [fst].
    rewrite signString_unrecognized by done. rewrite Halg in Hrec |- *.
    destruct (decide (Algorithm c = "")) as [He|]; [|done].
    exfalso. apply Hrec.
    apply list_elem_of_further, list_elem_of_further, list_elem_of_here.
Qed.

(** C7 (signature in the parameters).  [ValidateWithSignInParams] fails
    with the missing-signature error when the parameters have no entry
    under the signature key, with the type error when the entry is not a
    string, and is otherwise [Validate] on the parameters and that string;
    the result is the one [Validate] gives on the parameters without the
    signature entry. *)
Theorem C7_signature_in_params (v : SignValidator) (params : loc) (h : heap) :
  ((h !!! params) !! SignatureKey (config v) = None →
     (ValidateWithSignInParams v params h).1
     = (false, Some (errors_New "签名参数不存在")))
  ∧ (∀ x, (h !!! params) !! SignatureKey (config v) = Some x →
          (∀ s, x ≠ VString s) →
          (ValidateWithSignInParams v params h).1
          = (false, Some (errors_New "签名参数不是字符串类型")))
  ∧ (∀ s, (h !!! params) !! SignatureKey (config v) = Some (VString s) →
          ValidateWithSignInParams v params h = Validate v params s h
          ∧ ∀ (p' : loc) (h' : heap),
              h' !!! p' = delete (SignatureKey (config v)) (h !!! params) →
              (Validate v params s h).1 = (Validate v p' s h').1).
Proof.
  rewrite ValidateWithSignInParams_spec. split; [|split].
  - by intros ->.
  - intros x -> Hx. destruct x; try done. by destruct (Hx s).
  - intros s ->. split; [done|]. intros p' h' Hp'.
    rewrite !Validate_spec, Hp'. cbn [fst].
    by rewrite (canonical_filtered _ _ _
                  (filterParams_delete_signature (config v) (h !!! params))).
Qed.

Lemma C7_signature_in_params_witness :
  (({[1%positive := sign_only_params]} : heap) !!! 1%positive)
    !! SignatureKey (config (NewSignValidator md5_config))
  = Some (VString "0123")
  ∧ ValidateWithSignInParams (NewSignValidator md5_config) 1%positive
      {[1%positive := sign_only_params]}
    = Validate (NewSignValidator md5_config) 1%positive "0123"
        {[1%positive := sign_only_params]}.
Proof.
  assert ((({[1%positive := sign_only_params]} : heap) !!! 1%positive)
            !! SignatureKey (config (NewSignValidator md5_config))
          = Some (VString "0123")) as H by (vm_compute; reflexivity).
  split; [exact H|].
  exact (proj1 (proj2 (proj2 (C7_signature_in_params
                                (NewSignValidator md5_config) 1%positive
                                {[1%positive := sign_only_params]}))
                 "0123" H)).
Defined.

(** C8 (no mutation).  After [GenerateSignature], [Validate] and
    [ValidateWithSignInParams] every map of the store, and the caller's
    parameter map in particular, is what it was before the call: the
    deletions happen in a map allocated by the call. *)
Theorem C8_params_not_mutated (v : SignValidator) (params : loc)
    (signature : string) (h : heap) :
  (h ⊆ (GenerateSignature v params h).2
   ∧ (GenerateSignature v params h).2 !!! params = h !!! params
   ∧ ∃ paramsCopy,
       h !! paramsCopy = None
       ∧ (GenerateSignature v params h).2
         = <[paramsCopy := filterParams (config v) (h !!! params)]> h)
  ∧ (h ⊆ (Validate v params signature h).2
     ∧ (Validate v params signature h).2 !!! params = h !!! params)
  ∧ (h ⊆ (ValidateWithSignInParams v params h).2
     ∧ (ValidateWithSignInParams v params h).2 !!! params = h !!! params).
Proof.
  rewrite ValidateWithSignInParams_spec.
  assert (∀ s, h ⊆ (Validate v params s h).2
               ∧ (Validate v params s h).2 !!! params = h !!! params) as HV.
  { intros s. rewrite Validate_spec. cbn [snd].
    split; [apply store_grows | apply read_after_copy]. }
  split; [|split].
  - rewrite GenerateSignature_spec. cbn [snd].
    split; [apply store_grows|]. split; [apply read_after_copy|].
    exists (fresh (dom h)). split; [apply fresh_loc_unallocated | done].
  - apply HV.
  - destruct (_ !! _) as [[]|]; first [apply HV | done].
Qed.

(** C9 (no injectivity).  The maps [{a: 1&b=2}] and [{a: 1, b: 2}] differ,
    and under every validator that keeps [a] and [b] they have the same
    string to sign and the same signature.  Under every validator, whatever
    its algorithm, secret and excluded keys, there are two maps that differ
    on a kept key and have the same string to sign and the same
    signature. *)
Theorem C9_not_injective :
  injection_params_1 ≠ injection_params_2
  ∧ (∀ (v : SignValidator) (p1 p2 : loc) (h1 h2 : heap),
       ¬ excluded (config v) "a" → ¬ excluded (config v) "b" →
       h1 !!! p1 = injection_params_1 → h2 !!! p2 = injection_params_2 →
       (stringToSign v p1 h1).1 = (stringToSign v p2 h2).1
       ∧ (GenerateSignature v p1 h1).1 = (GenerateSignature v p2 h2).1)
  ∧ (∀ v : SignValidator,
       ∃ (m1 m2 : gmap string Value) (k : string),
         ¬ excluded (config v) k ∧ m1 !! k ≠ m2 !! k
         ∧ ∀ (p1 p2 : loc) (h1 h2 : heap),
             h1 !!! p1 = m1 → h2 !!! p2 = m2 →
             (stringToSign v p1 h1).1 = (stringToSign v p2 h2).1
             ∧ (GenerateSignature v p1 h1).1 = (GenerateSignature v p2 h2).1).
Proof.
  split; [|split].
  - intros Heq. apply (f_equal (fun m => m !! "b")) in Heq. discriminate Heq.
  - intros v p1 p2 h1 h2 Ha Hb H1 H2.
    rewrite !stringToSign_spec, !GenerateSignature_spec, H1, H2. cbn [fst].
    unfold injection_params_1, injection_params_2.
    by rewrite <- (canonical_collision (config v) "a" "b").
  - intros v. destruct (two_kept_keys (config v)) as (ka & kb & Hne & Hle & Ha & Hb).
    exists {[ka := VString (("1&" +:+ kb) +:+ "=2")]},
           (<[ka := VString "1"]> {[kb := VString "2"]}), ka.
    split; [done|]. split.
    + rewrite lookup_singleton_eq, lookup_insert_eq, string_app_assoc.
      intros Heq. discriminate Heq.
    + intros p1 p2 h1 h2 H1 H2.
      rewrite !stringToSign_spec, !GenerateSignature_spec, H1, H2. cbn [fst].
      by rewrite <- (canonical_collision (config v) ka kb).
Qed.

Lemma C9_not_injective_witness :
  (stringToSign (NewSignValidator md5_config) 1%positive
     {[1%positive := injection_params_1]}).1
  = (stringToSign (NewSignValidator md5_config) 1%positive
       {[1%positive := injection_params_2]}).1
  ∧ (GenerateSignature (NewSignValidator md5_config) 1%positive
       {[1%positive := injection_params_1]}).1
    = (GenerateSignature (NewSignValidator md5_config) 1%positive
         {[1%positive := injection_params_2]}).1.
Proof.
  apply (proj1 (proj2 C9_not_injective) (NewSignValidator md5_config)).
  - by intros [[=]|[]%elem_of_nil].
  - by intros [[=]|[]%elem_of_nil].
  - apply lookup_total_singleton_eq.
  - apply lookup_total_singleton_eq.
Defined.

(** C10 (everything filtered).  When every key of the parameters is the
    signature key or an ignored key and the secret is not empty, the
    string that is signed is [&key=] followed by the secret, with nothing
    before the ampersand. *)
Theorem C10_all_filtered (v : SignValidator) (params : loc) (h : heap) :
  (∀ k, k ∈ dom (h !!! params) → excluded (config v) k) →
  Secret (config v) ≠ "" →
  (stringToSign v params h).1 = "&key=" +:+ Secret (config v)
  ∧ (GenerateSignature v params h).1
    = signString v ("&key=" +:+ Secret (config v)).
Proof.
  intros Hall Hsecret.
  assert (canonical (config v) (h !!! params) = "&key=" +:+ Secret (config v))
    as Hcan.
  { unfold canonical, joinedPairs. cbv zeta.
    rewrite filterParams_all, (sorted_keys_empty (A := Value)) by done.
    by rewrite decide_True. }
  by rewrite stringToSign_spec, GenerateSignature_spec, Hcan.
Qed.

Lemma C10_all_filtered_witness :
  (stringToSign (NewSignValidator md5_config) 1%positive
     {[1%positive := sign_only_params]}).1 = "&key=testSecret"
  ∧ (GenerateSignature (NewSignValidator md5_config) 1%positive
       {[1%positive := sign_only_params]}).1
    = signString (NewSignValidator md5_config) "&key=testSecret".
Proof.
  apply (C10_all_filtered (NewSignValidator md5_config) 1%positive
           {[1%positive := sign_only_params]}).
  - intros k Hk. left.
    rewrite lookup_total_singleton_eq in Hk. unfold sign_only_params in Hk.
    rewrite dom_singleton_L in Hk. by apply elem_of_singleton in Hk.
  - discriminate.
Defined.
